(** * A circuit breaker guarding one asynchronous operation

    Shallow embedding of [src/circuitbreaker.ts] (class [CircuitBreaker]) and
    of the statements made about it.

    Modelling conventions.
    - JavaScript numbers that the class handles are millisecond time stamps,
      millisecond durations, counts and a percentage: they are integers here
      ([Z]; the two counters, which start at 0 and are only ever incremented
      or overwritten with 0 or 1, are [N]).  The quotient computed by
      [getFailRate] is an exact rational ([Q]), the rounding of the
      floating-point quotient is left out; [0 / 0], which is [NaN] in
      JavaScript, is [None].
    - A field of type [number | undefined] is an [option Z]; comparisons
      against [undefined] are false, as in JavaScript.
    - The class mutates [this]; methods are computations in a state monad
      over a [World] holding the instance, the number of clock reads made so
      far and the log of the calls made to the guarded operation.
    - [Date.now()] and the guarded operation are the two external
      collaborators.  They are oracles: [clock k] is the value of the k-th
      read of the clock, and [request k args] is the way the k-th call of
      the guarded operation settles when invoked with argument list [args].
    - [fire] is an [async] method: a [throw] inside it, or a normal return,
      settles the promise it returns, so its result is a [settled] value.
      Calls to [fire] are sequential (each one is awaited before the next),
      and the guarded operation always settles. *)

From Stdlib Require Import String ZArith NArith QArith Bool List Lia.
Import ListNotations.

Close Scope Q_scope.
Open Scope Z_scope.

(** ** Data model *)

(** [enum State]. *)
Inductive State : Type := OPENED | CLOSED | HALF.

Definition State_eqb (a b : State) : bool :=
  match a, b with
  | OPENED, OPENED | CLOSED, CLOSED | HALF, HALF => true
  | _, _ => false
  end.

(** [type Options]: every field may be absent. *)
Record Options : Type := mkOptions {
  opt_halfTimeout : option Z;
  opt_openTimeout : option Z;
  opt_minFailed : option Z;
  opt_percentFailed : option Z
}.

(** [Required<Options>]: every field present. *)
Record RequiredOptions : Type := mkRequired {
  halfTimeout : Z;
  openTimeout : Z;
  minFailed : Z;
  percentFailed : Z
}.

(** A [Date] object, identified with its time value. *)
Record Date : Type := newDate { getTime : Z }.

(** What [getInfo] returns. *)
Record Info : Type := mkInfo {
  info_state : State;
  info_openDateEnd : Date;
  info_halfDateEnd : Date
}.

(** The values of type [any] that travel through the class: payloads of the
    guarded operation, the argument arrays, the [Error] thrown by [fire] and
    the object literal [{ response: r, ...this.getInfo() }]. *)
#[warnings="-register-all"]
Inductive value : Type :=
| VUndefined
| VNumber (n : Z)
| VString (s : string)
| VArray (elems : list value)
| VError (message : string)
| VReport (response : value) (info : Info).

(** A settled promise. *)
Inductive settled : Type :=
| Resolved (v : value)
| Rejected (reason : value).

(** The outcome of evaluating an expression that may throw. *)
Inductive completion (A : Type) : Type :=
| Normal (a : A)
| Throw (e : value).
Arguments Normal {A} a.
Arguments Throw {A} e.

(** The fields of a [CircuitBreaker] instance (the [request] field is the
    oracle of the section below). *)
Record CircuitBreaker : Type := mkBreaker {
  options : RequiredOptions;
  state : State;
  openDateEnd : option Z;
  halfDateEnd : option Z;
  failCount : N;
  successCount : N
}.

Definition set_state (s : State) (b : CircuitBreaker) : CircuitBreaker :=
  mkBreaker (options b) s (openDateEnd b) (halfDateEnd b)
            (failCount b) (successCount b).
Definition set_openDateEnd (d : option Z) (b : CircuitBreaker) : CircuitBreaker :=
  mkBreaker (options b) (state b) d (halfDateEnd b)
            (failCount b) (successCount b).
Definition set_halfDateEnd (d : option Z) (b : CircuitBreaker) : CircuitBreaker :=
  mkBreaker (options b) (state b) (openDateEnd b) d
            (failCount b) (successCount b).
Definition set_failCount (n : N) (b : CircuitBreaker) : CircuitBreaker :=
  mkBreaker (options b) (state b) (openDateEnd b) (halfDateEnd b)
            n (successCount b).
Definition set_successCount (n : N) (b : CircuitBreaker) : CircuitBreaker :=
  mkBreaker (options b) (state b) (openDateEnd b) (halfDateEnd b)
            (failCount b) n.

(** ** JavaScript operators on possibly undefined numbers *)

(** [x || d] for a number [x]: [undefined] and [0] are falsy. *)
Definition or_default (x : option Z) (d : Z) : Z :=
  match x with
  | None => d
  | Some 0 => d
  | Some v => v
  end.

(** [a < b], [a >= b] and [a > b] where [b] may be [undefined]. *)
Definition js_lt (a : Z) (b : option Z) : bool :=
  match b with Some d => a <? d | None => false end.
Definition js_ge (a : Z) (b : option Z) : bool :=
  match b with Some d => a >=? d | None => false end.
Definition js_gt (a : Z) (b : option Z) : bool :=
  match b with Some d => a >? d | None => false end.

(** [r >= p] where [r] may be [NaN]. *)
Definition rate_ge (r : option Q) (p : Z) : bool :=
  match r with Some q => Qle_bool (inject_Z p) q | None => false end.

(** ** Construction *)

(** The constructor body: lines 26-31, and the field initialisers. *)
Definition constructor (opts : option Options) : CircuitBreaker :=
  let field (f : Options -> option Z) : option Z :=
    match opts with Some o => f o | None => None end in
  mkBreaker
    (mkRequired (or_default (field opt_halfTimeout) 10000)
                (or_default (field opt_openTimeout) 5000)
                (or_default (field opt_minFailed) 15)
                (or_default (field opt_percentFailed) 50))
    CLOSED None None 0%N 0%N.

(** [new CircuitBreaker(request, opts)]: the constructor has no [throw]. *)
Definition new_CircuitBreaker (opts : option Options)
  : completion CircuitBreaker :=
  Normal (constructor opts).

(** ** The mutable world and its monad *)

Record World : Type := mkWorld {
  this : CircuitBreaker;
  reads : nat;
  calls : list (list value)
}.

Definition initial_world (b : CircuitBreaker) : World := mkWorld b 0 [].

Definition M (A : Type) : Type := World -> A * World.

Definition ret {A : Type} (a : A) : M A := fun w => (a, w).

Definition bind {A B : Type} (m : M A) (k : A -> M B) : M B :=
  fun w => match m w with (a, w') => k a w' end.

Declare Scope breaker_scope.
Delimit Scope breaker_scope with breaker.
Notation "x <- m ;; k" := (bind m (fun x => k))
  (at level 61, m at next level, right associativity) : breaker_scope.
Notation "m ;; k" := (bind m (fun _ => k))
  (at level 61, right associativity) : breaker_scope.
Open Scope breaker_scope.

(** Reading a field of [this]. *)
Definition get {A : Type} (f : CircuitBreaker -> A) : M A :=
  fun w => (f (this w), w).

(** Assigning a field of [this]. *)
Definition assign (upd : CircuitBreaker -> CircuitBreaker) : M unit :=
  fun w => (tt, mkWorld (upd (this w)) (reads w) (calls w)).

Definition when (c : bool) (m : M unit) : M unit :=
  if c then m else ret tt.

(** ** The methods *)

Section Methods.

Variable clock : nat -> Z.
Variable request : nat -> list value -> settled.

(** [Date.now()]. *)
Definition Date_now : M Z :=
  fun w => (clock (reads w), mkWorld (this w) (S (reads w)) (calls w)).

(** [await this.request(a1, ..., an)]: logs the argument list and yields
    the way the promise settles. *)
Definition await_request (arguments : list value) : M settled :=
  fun w => (request (List.length (calls w)) arguments,
            mkWorld (this w) (reads w) (calls w ++ [arguments])).

(** Lines 33-39. *)
Definition getInfo : M Info :=
  s <- get state ;;
  o <- get openDateEnd ;;
  h <- get halfDateEnd ;;
  ret (mkInfo s (newDate (or_default o 0)) (newDate (or_default h 0))).

(** Lines 53-57. *)
Definition reset : M unit :=
  assign (set_successCount 0%N) ;;
  assign (set_failCount 0%N) ;;
  assign (set_halfDateEnd None).

(** Lines 59-61. *)
Definition setOpenDate : M unit :=
  now <- Date_now ;;
  t <- get (fun b => openTimeout (options b)) ;;
  assign (set_openDateEnd (Some (now + t))).

(** Lines 62-64. *)
Definition setHalfDate : M unit :=
  now <- Date_now ;;
  t <- get (fun b => halfTimeout (options b)) ;;
  assign (set_halfDateEnd (Some (now + t))).

(** Lines 66-68. *)
Definition getFailRate : M (option Q) :=
  f <- get failCount ;;
  s <- get successCount ;;
  ret match (f + s)%N with
      | N0 => None
      | Npos d => Some (Z.of_N (f * 100) # d)%Q
      end.

(** The three [case] bodies of [success], lines 72-83.  None of them ends
    in [break], so control runs from the selected one through all the
    following ones. *)
Definition success_case_HALF : M unit :=
  assign (fun b => set_successCount (successCount b + 1)%N b) ;;
  now <- Date_now ;;
  h <- get halfDateEnd ;;
  when (js_ge now h) (assign (set_state CLOSED) ;; reset).

Definition success_case_OPENED : M unit :=
  assign (set_successCount 1%N) ;;
  assign (set_state HALF) ;;
  setHalfDate.

Definition success_case_CLOSED : M unit :=
  assign (fun b => set_successCount (successCount b + 1)%N b).

(** Lines 70-86. *)
Definition success (response : value) : M value :=
  s <- get state ;;
  match s with
  | HALF => success_case_HALF ;; success_case_OPENED ;; success_case_CLOSED
  | OPENED => success_case_OPENED ;; success_case_CLOSED
  | CLOSED => success_case_CLOSED
  end ;;
  ret response.

(** Lines 88-123.  Every path of the [switch] returns [e] except the one
    that leaves the [HALF] case at its end, where the function returns
    nothing. *)
Definition fail (e : value) (args : list value) : M value :=
  s <- get state ;;
  match s with
  | OPENED =>
      setOpenDate ;;
      ret e
  | CLOSED =>
      assign (set_failCount 1%N) ;;
      assign (set_state HALF) ;;
      setHalfDate ;;
      ret e
  | HALF =>
      assign (fun b => set_failCount (failCount b + 1)%N b) ;;
      now <- Date_now ;;
      h <- get halfDateEnd ;;
      if js_gt now h then
        reset ;;
        assign (set_failCount 1%N) ;;
        setHalfDate ;;
        ret e
      else
        f <- get failCount ;;
        m <- get (fun b => minFailed (options b)) ;;
        if Z.of_N f >=? m then
          r <- getFailRate ;;
          p <- get (fun b => percentFailed (options b)) ;;
          if rate_ge r p then
            assign (set_state OPENED) ;;
            reset ;;
            setOpenDate ;;
            ret e
          else
            reset ;;
            assign (set_failCount 1%N) ;;
            setHalfDate ;;
            ret e
        else
          ret VUndefined
  end.

(** The guard of line 42; [&&] reads the clock only in state [OPENED]. *)
Definition circuit_is_open : M bool :=
  s <- get state ;;
  if State_eqb s OPENED then
    now <- Date_now ;;
    o <- get openDateEnd ;;
    ret (js_lt now o)
  else ret false.

(** Lines 41-51.  [this.request(args)] passes ONE argument, the array of
    the arguments of [fire]. *)
Definition fire (args : list value) : M settled :=
  blocked <- circuit_is_open ;;
  if blocked then
    ret (Rejected (VError "The circuit is open"%string))
  else
    outcome <- await_request [VArray args] ;;
    match outcome with
    | Resolved response =>
        i <- getInfo ;;
        v <- success (VReport response i) ;;
        ret (Resolved v)
    | Rejected e =>
        i <- getInfo ;;
        v <- fail (VReport e i) args ;;
        ret (Resolved v)
    end.

(** A caller making one call of [fire] after the other. *)
Fixpoint fire_all (argss : list (list value)) : M (list settled) :=
  match argss with
  | [] => ret []
  | args :: rest =>
      r <- fire args ;;
      rs <- fire_all rest ;;
      ret (r :: rs)
  end.

(** The worlds a breaker can be in: freshly constructed, or after one more
    call of [fire]. *)
Inductive reachable : World -> Prop :=
| reachable_new (opts : option Options) :
    reachable (initial_world (constructor opts))
| reachable_fire (w : World) (args : list value) :
    reachable w -> reachable (snd (fire args w)).

End Methods.

(** The rejection with which [fire] refuses a call. *)
Definition CircuitOpen : settled :=
  Rejected (VError "The circuit is open"%string).

(** ** Concrete collaborators used in the examples *)

(** A clock that advances by one second at every read. *)
Definition ticking_clock (k : nat) : Z := Z.of_nat k * 1000.

(** A clock that reads 0 once and 10000 ever after. *)
Definition deadline_clock (k : nat) : Z :=
  match k with O => 0 | S _ => 10000 end.

(** A clock that advances by twenty seconds at every read. *)
Definition slow_clock (k : nat) : Z := Z.of_nat k * 20000.

(** A guarded operation that always rejects with ["Failed"]. *)
Definition always_failing (k : nat) (arguments : list value) : settled :=
  Rejected (VString "Failed"%string).

(** A guarded operation that rejects its first call and resolves the
    following ones. *)
Definition failing_once (k : nat) (arguments : list value) : settled :=
  match k with
  | O => Rejected (VString "Failed"%string)
  | S _ => Resolved (VString "Success"%string)
  end.

(** The configuration of the scenario of the specification. *)
Definition scenario_options : option Options :=
  Some (mkOptions (Some 10000) (Some 5000) (Some 2) (Some 50)).

(** The world of the scenario after its two failed calls, with the clock
    ticking every second. *)
Definition opened_world : World :=
  mkWorld (mkBreaker (mkRequired 10000 5000 2 50) OPENED
             (Some 7000) None 0%N 0%N)
          3 [[VArray []]; [VArray []]].

(** A configuration is malformed when a time-out or the minimum number of
    failures is not positive, or the ratio lies outside (0, 100]. *)
Definition malformed (o : Options) : Prop :=
  (exists t, opt_openTimeout o = Some t /\ t <= 0) \/
  (exists t, opt_halfTimeout o = Some t /\ t <= 0) \/
  (exists m, opt_minFailed o = Some m /\ m <= 0) \/
  (exists p, opt_percentFailed o = Some p /\ (p <= 0 \/ 100 < p)).

(** A configuration with every option malformed and none of them zero. *)
Definition malformed_options : Options :=
  mkOptions (Some (-10000)) (Some (-1)) (Some (-3)) (Some 150).

(** A guarded operation that always resolves with ["Success"]. *)
Definition always_succeeding (k : nat) (arguments : list value) : settled :=
  Resolved (VString "Success"%string).

(** A breaker in its initial state with the default configuration, in a
    fresh world. *)
Definition new_world : World := initial_world (constructor None).

(** The world after one failed call on [new_world] with the ticking clock:
    half-open until 10000, one failure counted. *)
Definition half_world : World :=
  mkWorld (mkBreaker (mkRequired 10000 5000 15 50) HALF
             None (Some 10000) 1%N 0%N)
          1 [[VArray []]].

(** The argument lists with which the guarded operation is called during a
    sequence of calls of [fire] that settled as [results]: one call, with
    the array of the arguments, for every call of [fire] that resolved. *)
Fixpoint forwarded (argss : list (list value)) (results : list settled)
  : list (list value) :=
  match argss, results with
  | args :: argss', Resolved _ :: results' =>
      [VArray args] :: forwarded argss' results'
  | _ :: argss', Rejected _ :: results' => forwarded argss' results'
  | _, _ => []
  end.

(** The world of the scenario after its first failed call, with the clock
    ticking every second: half-open until 10000, one failure counted, and
    [minFailed = 2]. *)
Definition scenario_half_world : World :=
  mkWorld (mkBreaker (mkRequired 10000 5000 2 50) HALF
             None (Some 10000) 1%N 0%N)
          1 [[VArray []]].

(** A guarded operation that resolves its first two calls and rejects the
    following ones with ["Failed"]. *)
Definition failing_third (k : nat) (arguments : list value) : settled :=
  match k with
  | O | S O => Resolved (VString "Success"%string)
  | S (S _) => Rejected (VString "Failed"%string)
  end.

(** The world after two successful calls on [new_world]: still CLOSED, two
    successes counted, the clock never read. *)
Definition counted_world : World :=
  mkWorld (mkBreaker (mkRequired 10000 5000 15 50) CLOSED
             None None 0%N 2%N)
          0 [[VArray []]; [VArray []]].

(** The configuration of the scenario with a negative [openTimeout]. *)
Definition impatient_options : Options :=
  mkOptions (Some 10000) (Some (-1)) (Some 2) (Some 50).

(** ** The demonstration program, [src/index.ts] *)

Module Index.

(** What the program writes: a value on the standard output
    ([console.log]), a value on the standard error ([console.error]), or
    nothing because the rejection handler itself threw. *)
Inductive output : Type :=
| Log (v : value)
| Error (v : value)
| Uncaught (e : value).

(** [e.message]: the message of an [Error]; [undefined] on the other
    values; reading a property of [undefined] throws. *)
Definition message (e : value) : completion value :=
  match e with
  | VError m => Normal (VString m)
  | VUndefined =>
      Throw (VError "Cannot read properties of undefined"%string)
  | _ => Normal VUndefined
  end.

(** Line 13: [{ minFailed: 2, halfTimeout: 5000 }]. *)
Definition breaker : CircuitBreaker :=
  constructor (Some (mkOptions (Some 5000) None (Some 2) None)).

Section Program.

Variable clock : nat -> Z.

(** [lucky k] is the value of [Math.random() > .6] in the k-th call of
    [request]. *)
Variable lucky : nat -> bool.

(** Lines 3-11: the sample operation takes no argument and settles at
    once. *)
Definition request (k : nat) (arguments : list value) : settled :=
  if lucky k then Resolved (VString "Success"%string)
  else Rejected (VString "Failed"%string).

(** Lines 15-17, the callback of [setInterval]:
    [breaker.fire().then(console.log).catch((e) => console.error(e.message))]. *)
Definition callback : M output :=
  r <- fire clock request [] ;;
  ret match r with
      | Resolved v => Log v
      | Rejected e =>
          match message e with
          | Normal m => Error m
          | Throw x => Uncaught x
          end
      end.

(** The first [n] runs of the callback. *)
Fixpoint interval (n : nat) : M (list output) :=
  match n with
  | O => ret []
  | S n' =>
      o <- callback ;;
      os <- interval n' ;;
      ret (o :: os)
  end.

End Program.

End Index.


(** * Properties *)

Section Properties.

Variable clock : nat -> Z.
Variable request : nat -> list value -> settled.

(** Unfolds the methods down to the monad operations. *)
Ltac unfold_methods :=
  unfold fire, circuit_is_open, getInfo, success, fail,
    success_case_HALF, success_case_OPENED, success_case_CLOSED,
    setOpenDate, setHalfDate, getFailRate, reset, await_request,
    Date_now, when, assign, get, bind, ret in *.

(** Runs the first call of a sequence of calls. *)
Ltac step_fire_all := cbn [fire_all List.length repeat].

Local Abbreviation fire := (fire clock request).
Local Abbreviation fire_all := (fire_all clock request).
Local Abbreviation reachable := (reachable clock request).

(** A refused call: one clock read, nothing else. *)
Lemma fire_blocked (w : World) (args : list value) :
  state (this w) = OPENED ->
  js_lt (clock (reads w)) (openDateEnd (this w)) = true ->
  fire args w = (CircuitOpen, mkWorld (this w) (S (reads w)) (calls w)).
Proof.
  intros Hst Hlt. unfold_methods. cbn.
  rewrite Hst. cbn. rewrite Hlt. reflexivity.
Qed.

Lemma fire_all_blocked (argss : list (list value)) :
  forall (w : World) (d : Z),
    state (this w) = OPENED ->
    openDateEnd (this w) = Some d ->
    (forall k, (k < List.length argss)%nat -> clock (reads w + k) < d) ->
    fire_all argss w =
      (repeat CircuitOpen (List.length argss),
       mkWorld (this w) (reads w + List.length argss) (calls w)).
Proof.
  induction argss as [|args rest IH]; intros w d Hst Hd Hnow.
  - cbn. unfold ret. rewrite Nat.add_0_r. destruct w; reflexivity.
  - step_fire_all. unfold bind.
    rewrite fire_blocked.
    + rewrite (IH _ d); cbn [this reads calls]; auto.
      * unfold ret. now rewrite Nat.add_succ_comm.
      * intros k Hk. rewrite Nat.add_succ_comm. apply Hnow. cbn. lia.
    + exact Hst.
    + rewrite Hd. cbn. apply Z.ltb_lt.
      rewrite <- (Nat.add_0_r (reads w)). apply Hnow. cbn. lia.
Qed.


(** The date until which the circuit stays open was computed from a clock
    read made earlier and the configured time-out. *)
Definition open_date_set (w : World) : Prop :=
  state (this w) = OPENED ->
  exists k, (k < reads w)%nat /\
    openDateEnd (this w) = Some (clock k + openTimeout (options (this w))).

Lemma open_date_set_fire (w : World) (args : list value) :
  open_date_set w -> open_date_set (snd (fire args w)).
Proof.
  unfold open_date_set.
  destruct w as [[o st od hd f s] r c]. unfold_methods. cbn.
  intros Inv.
  destruct st; cbn.
  - destruct (js_lt (clock r) od); cbn.
    + intros _. destruct (Inv eq_refl) as [k [Hk Hd]].
      exists k. split; [lia | exact Hd].
    + destruct (request (List.length c) [VArray args]); cbn.
      * discriminate.
      * intros _. exists (S r). split; [lia | reflexivity].
  - destruct (request (List.length c) [VArray args]); cbn; discriminate.
  - destruct (request (List.length c) [VArray args]); cbn.
    + destruct (js_ge (clock r) hd); cbn; discriminate.
    + destruct (js_gt (clock r) hd); cbn; try discriminate.
      destruct (Z.of_N (f + 1) >=? minFailed o); cbn; try discriminate.
      destruct (rate_ge _ _); cbn; try discriminate.
      intros _. exists (S r). split; [lia | reflexivity].
Qed.

Lemma reachable_open_date_set (w : World) :
  reachable w -> open_date_set w.
Proof.
  induction 1 as [opts | w args Hw IH].
  - unfold open_date_set. cbn. discriminate.
  - apply open_date_set_fire. exact IH.
Qed.

(** ** The two hand-overs inside the half-open state, as the code runs them *)

(** A success in state HALF runs all three [case] bodies: the state ends as
    HALF whatever the clock says, with [successCount = 2] and a half-open
    date computed from a second clock read. *)
Lemma success_in_HALF (w : World) (response : value) :
  state (this w) = HALF ->
  fst (success clock response w) = response /\
  state (this (snd (success clock response w))) = HALF /\
  successCount (this (snd (success clock response w))) = 2%N /\
  halfDateEnd (this (snd (success clock response w)))
    = Some (clock (S (reads w)) + halfTimeout (options (this w))) /\
  failCount (this (snd (success clock response w)))
    = (if js_ge (clock (reads w)) (halfDateEnd (this w))
       then 0%N else failCount (this w)).
Proof.
  destruct w as [[o st od hd f s] r c]. cbn. intros ->.
  unfold_methods. cbn.
  destruct (js_ge (clock r) hd); cbn; repeat split.
Qed.

(** A failure in state HALF strictly after the half-open date starts a new
    half-open window with [failCount = 1]. *)
Lemma fail_in_HALF_after_deadline
    (w : World) (e : value) (args : list value) (d : Z) :
  state (this w) = HALF ->
  halfDateEnd (this w) = Some d ->
  d < clock (reads w) ->
  fst (fail clock e args w) = e /\
  state (this (snd (fail clock e args w))) = HALF /\
  failCount (this (snd (fail clock e args w))) = 1%N /\
  successCount (this (snd (fail clock e args w))) = 0%N /\
  halfDateEnd (this (snd (fail clock e args w)))
    = Some (clock (S (reads w)) + halfTimeout (options (this w))).
Proof.
  destruct w as [[o st od hd f s] r c]. cbn. intros -> -> Hlate.
  unfold_methods. cbn.
  destruct (Z.gtb_spec (clock r) d); [| lia].
  cbn. repeat split.
Qed.

(** ** Refused calls *)

(** C1. While the breaker is in state OPENED and every clock read made by the
    admission check is before [openDateEnd], any number of successive calls
    of [fire], with any arguments, all reject with the error
    'The circuit is open', never call the guarded operation, and leave
    every field of the breaker as it was. *)
Theorem fire_while_open_rejects
    (argss : list (list value)) (w : World) (d : Z) :
  state (this w) = OPENED ->
  openDateEnd (this w) = Some d ->
  (forall k, (k < List.length argss)%nat -> clock (reads w + k) < d) ->
  fst (fire_all argss w)
    = repeat (Rejected (VError "The circuit is open"%string))
             (List.length argss) /\
  this (snd (fire_all argss w)) = this w /\
  calls (snd (fire_all argss w)) = calls w.
Proof.
  intros Hst Hd Hnow.
  rewrite (fire_all_blocked argss w d Hst Hd Hnow). cbn.
  repeat split.
Qed.






(** ** What the promise returned by [fire] settles to *)

(** C9. The promise returned by [fire] rejects only when the state is OPENED
    and the clock is before [openDateEnd], and then with the error
    'The circuit is open'.  Otherwise it resolves: when the guarded
    operation rejected with [e], with the report that carries [e] or with
    [undefined], never with a rejection. *)
Theorem fire_rejects_only_circuit_open (w : World) (args : list value) :
  match fst (fire args w) with
  | Rejected reason =>
      reason = VError "The circuit is open"%string /\
      state (this w) = OPENED /\
      js_lt (clock (reads w)) (openDateEnd (this w)) = true
  | Resolved v =>
      ~ (state (this w) = OPENED /\
         js_lt (clock (reads w)) (openDateEnd (this w)) = true) /\
      match request (List.length (calls w)) [VArray args] with
      | Rejected e => v = VReport e (fst (getInfo w)) \/ v = VUndefined
      | Resolved r => v = VReport r (fst (getInfo w))
      end
  end.
Proof.
  destruct w as [[o st od hd f s] r c]. unfold_methods. cbn.
  destruct st; cbn;
    repeat match goal with
           | |- context [if ?b then _ else _] => destruct b eqn:?; cbn
           | |- context [request ?k ?a] => destruct (request k a); cbn
           end;
    intuition (discriminate || auto).
Qed.

(** ** The scenario of the specification *)

(** C3. With [minFailed = 2], [percentFailed = 50], [openTimeout = 5000] and
    [halfTimeout = 10000], a new breaker is CLOSED; a first failed call
    takes it to HALF with [failCount = 1]; a second failed call inside the
    half-open window raises the count to 2 and the failure rate to 100 and
    takes it to OPENED; a third call made before the open date rejects with
    'The circuit is open' without reaching the guarded operation. *)
Theorem scenario_two_failures_then_open
    (a1 a2 a3 : list value) (e1 e2 : value) :
  request 0%nat [VArray a1] = Rejected e1 ->
  request 1%nat [VArray a2] = Rejected e2 ->
  clock 1%nat < clock 0%nat + 10000 ->
  clock 3%nat < clock 2%nat + 5000 ->
  let w0 := initial_world (constructor scenario_options) in
  let w1 := snd (fire a1 w0) in
  let w2 := snd (fire a2 w1) in
  let counted :=
    snd (assign (fun b => set_failCount (failCount b + 1)%N b) w1) in
  state (this w0) = CLOSED /\
  (state (this w1) = HALF /\ failCount (this w1) = 1%N) /\
  (failCount (this counted) = 2%N /\
   exists q, fst (getFailRate counted) = Some q /\ Qeq q (inject_Z 100)) /\
  state (this w2) = OPENED /\
  fst (fire a3 w2) = Rejected (VError "The circuit is open"%string) /\
  calls (snd (fire a3 w2)) = calls w2.
Proof.
  intros H1 H2 Hhalf Hopen. cbv zeta.
  assert (Hw1 : snd (fire a1 (initial_world (constructor scenario_options)))
    = mkWorld (mkBreaker (mkRequired 10000 5000 2 50) HALF None
                 (Some (clock 0%nat + 10000)) 1%N 0%N)
              1 [[VArray a1]]).
  { unfold_methods. cbn. rewrite H1. reflexivity. }
  rewrite Hw1.
  assert (Hw2 : snd (fire a2
      (mkWorld (mkBreaker (mkRequired 10000 5000 2 50) HALF None
                 (Some (clock 0%nat + 10000)) 1%N 0%N)
              1 [[VArray a1]]))
    = mkWorld (mkBreaker (mkRequired 10000 5000 2 50) OPENED
                 (Some (clock 2%nat + 5000)) None 0%N 0%N)
              3 [[VArray a1]; [VArray a2]]).
  { unfold_methods. cbn. rewrite H2. cbn.
    destruct (Z.gtb_spec (clock 1%nat) (clock 0%nat + 10000)); [lia |].
    reflexivity. }
  rewrite Hw2.
  assert (Hblocked : js_lt (clock 3%nat) (Some (clock 2%nat + 5000)) = true).
  { cbn. apply Z.ltb_lt. exact Hopen. }
  rewrite fire_blocked by (cbn [this state openDateEnd reads]; auto).
  cbn. repeat split.
  exists (200 # 2)%Q. split; reflexivity.
Qed.

(** ** Sequences of calls *)

(** Case analysis over the outcome of the guarded operation and over every
    test met along the way. *)
Ltac split_cases :=
  repeat (cbn in *;
          match goal with
          | H : request ?k ?a = _ |- context [request ?k ?a] => rewrite H
          | |- context [request ?k ?a] => destruct (request k a) eqn:?
          | |- context [if ?b then _ else _] => destruct b eqn:?
          end);
  cbn in *.

Lemma fire_all_cons (args : list value) (rest : list (list value))
    (w : World) :
  fire_all (args :: rest) w =
    (fst (fire args w) :: fst (fire_all rest (snd (fire args w))),
     snd (fire_all rest (snd (fire args w)))).
Proof.
  step_fire_all. unfold bind, ret.
  destruct (fire args w) as [r w1]. cbn [fst snd].
  destruct (fire_all rest w1) as [rs w2]. reflexivity.
Qed.

Lemma fire_options (w : World) (args : list value) :
  options (this (snd (fire args w))) = options (this w).
Proof.
  destruct w as [[o st od hd f s] r c]. unfold_methods. cbn.
  destruct st; cbn;
    repeat match goal with
           | |- context [if ?b then _ else _] => destruct b; cbn
           | |- context [request ?k ?a] => destruct (request k a); cbn
           end; reflexivity.
Qed.

(** X1.  The configuration of a breaker is never modified: after any sequence
    of calls of [fire] the four options are those it started with. *)
Theorem fire_all_keeps_options (argss : list (list value)) (w : World) :
  options (this (snd (fire_all argss w))) = options (this w).
Proof.
  revert w. induction argss as [|args rest IH]; intros w.
  - reflexivity.
  - rewrite fire_all_cons. cbn [snd]. rewrite IH. apply fire_options.
Qed.

Lemma fire_leaves_CLOSED_for_good (w : World) (args : list value) :
  state (this w) <> CLOSED ->
  state (this (snd (fire args w))) <> CLOSED.
Proof.
  destruct w as [[o st od hd f s] r c]. unfold_methods. cbn.
  destruct st; cbn; intros Hst; try congruence;
    repeat match goal with
           | |- context [if ?b then _ else _] => destruct b; cbn
           | |- context [request ?k ?a] => destruct (request k a); cbn
           end; discriminate.
Qed.

(** X2.  A breaker that has left the state CLOSED never comes back to it,
    whatever the calls, the clock and the outcomes of the guarded
    operation are. *)
Theorem never_closed_again (argss : list (list value)) (w : World) :
  state (this w) <> CLOSED ->
  state (this (snd (fire_all argss w))) <> CLOSED.
Proof.
  revert w. induction argss as [|args rest IH]; intros w Hst.
  - exact Hst.
  - rewrite fire_all_cons. cbn [snd]. apply IH.
    apply fire_leaves_CLOSED_for_good. exact Hst.
Qed.

Lemma fire_calls (w : World) (args : list value) :
  calls (snd (fire args w))
    = calls w ++ forwarded [args] [fst (fire args w)].
Proof.
  destruct w as [[o st od hd f s] r c]. unfold_methods. cbn.
  destruct st; split_cases;
    try reflexivity; try (symmetry; apply app_nil_r); try congruence.
Qed.

(** X3.  A sequence of calls of [fire] yields one result per call, and the
    guarded operation is called exactly once, with the array of the
    arguments as its only argument, for each call of [fire] that resolves,
    in the order of the calls; it is not called for a call that rejects. *)
Theorem fire_all_calls_once_each
    (argss : list (list value)) (w : World) :
  List.length (fst (fire_all argss w)) = List.length argss /\
  calls (snd (fire_all argss w))
    = calls w ++ forwarded argss (fst (fire_all argss w)).
Proof.
  revert w. induction argss as [|args rest IH]; intros w.
  - cbn. split; [reflexivity | symmetry; apply app_nil_r].
  - rewrite fire_all_cons. cbn [fst snd List.length].
    destruct (IH (snd (fire args w))) as [Hlen Hcalls].
    split; [now rewrite Hlen |].
    rewrite Hcalls, fire_calls, <- app_assoc. f_equal.
    destruct (fst (fire args w)); reflexivity.
Qed.

(** ** The closed state *)

Lemma fire_CLOSED_success (w : World) (args : list value) (r : value) :
  state (this w) = CLOSED ->
  request (List.length (calls w)) [VArray args] = Resolved r ->
  fire args w =
    (Resolved (VReport r (fst (getInfo w))),
     mkWorld (set_successCount (successCount (this w) + 1)%N (this w))
             (reads w) (calls w ++ [[VArray args]])).
Proof.
  destruct w as [[o st od hd f s] n c]. cbn. intros -> Hreq.
  unfold_methods. cbn. rewrite Hreq. reflexivity.
Qed.

(** X4.  While the guarded operation keeps resolving, a CLOSED breaker forwards
    every call, stays CLOSED, adds one to [successCount] per call, changes
    no other field and does not read the clock; every call resolves with a
    report taken in state CLOSED. *)
Theorem closed_breaker_counts_successes
    (argss : list (list value)) (w : World) :
  (forall k a, exists r, request k a = Resolved r) ->
  state (this w) = CLOSED ->
  this (snd (fire_all argss w))
    = set_successCount
        (successCount (this w) + N.of_nat (List.length argss))%N (this w) /\
  reads (snd (fire_all argss w)) = reads w /\
  calls (snd (fire_all argss w))
    = calls w ++ map (fun args => [VArray args]) argss /\
  Forall (fun result => exists r i,
            result = Resolved (VReport r i) /\ info_state i = CLOSED)
         (fst (fire_all argss w)).
Proof.
  intros Hok. revert w.
  induction argss as [|args rest IH]; intros w Hst.
  - cbn. rewrite N.add_0_r, app_nil_r.
    destruct w as [[o st od hd f s] n c]. repeat split. constructor.
  - destruct (Hok (List.length (calls w)) [VArray args]) as [r Hr].
    rewrite fire_all_cons, (fire_CLOSED_success w args r Hst Hr).
    cbn [fst snd].
    destruct (IH (mkWorld
                    (set_successCount (successCount (this w) + 1)%N (this w))
                    (reads w) (calls w ++ [[VArray args]])))
      as (Hthis & Hreads & Hcalls & Hall); [exact Hst |].
    rewrite Hthis, Hreads, Hcalls. cbn [this reads calls].
    repeat split.
    + destruct w as [[o st od hd f s] n c]. cbn.
      unfold set_successCount. cbn. f_equal. lia.
    + rewrite <- app_assoc. reflexivity.
    + constructor; [| exact Hall].
      exists r, (fst (getInfo w)). split; [reflexivity |].
      destruct w as [[o st od hd f s] n c]. exact Hst.
Qed.

(** X5.  The first failure of a CLOSED breaker: the call resolves with the
    report carrying the failure, the breaker becomes HALF with
    [failCount = 1] and a half-open date of now plus [halfTimeout]; the
    successes counted while CLOSED stay in [successCount]. *)
Theorem first_failure_keeps_success_count
    (w : World) (args : list value) (e : value) :
  state (this w) = CLOSED ->
  request (List.length (calls w)) [VArray args] = Rejected e ->
  fst (fire args w) = Resolved (VReport e (fst (getInfo w))) /\
  this (snd (fire args w))
    = mkBreaker (options (this w)) HALF (openDateEnd (this w))
        (Some (clock (reads w) + halfTimeout (options (this w))))
        1%N (successCount (this w)) /\
  reads (snd (fire args w)) = S (reads w).
Proof.
  destruct w as [[o st od hd f s] n c]. cbn. intros -> Hreq.
  unfold_methods. cbn. rewrite Hreq. repeat split.
Qed.

(** ** The shape of the reachable worlds *)

(** What the fields look like in each state. *)
Definition well_shaped (w : World) : Prop :=
  match state (this w) with
  | CLOSED =>
      failCount (this w) = 0%N /\
      openDateEnd (this w) = None /\
      halfDateEnd (this w) = None /\
      reads w = 0%nat /\
      successCount (this w) = N.of_nat (List.length (calls w))
  | OPENED =>
      failCount (this w) = 0%N /\
      successCount (this w) = 0%N /\
      halfDateEnd (this w) = None
  | HALF =>
      (exists k, (k < reads w)%nat /\
         halfDateEnd (this w)
           = Some (clock k + halfTimeout (options (this w)))) /\
      (failCount (this w) = 0%N \/ failCount (this w) = 1%N \/
       Z.of_N (failCount (this w)) < minFailed (options (this w))) /\
      (1 <= failCount (this w) + successCount (this w))%N
  end.

Local Arguments N.of_nat : simpl never.
Local Arguments N.add : simpl never.

Lemma well_shaped_fire (w : World) (args : list value) :
  well_shaped w -> well_shaped (snd (fire args w)).
Proof.
  unfold well_shaped.
  destruct w as [[o st od hd f s] n c]. unfold_methods. cbn.
  destruct st; cbn.
  - intros (-> & -> & ->). split_cases; auto.
    + split; [exists (S n); split; [lia | reflexivity] |].
      split; [auto | lia].
  - intros (-> & -> & -> & -> & ->). split_cases.
    + repeat split; auto. rewrite length_app. cbn [List.length]. lia.
    + split; [exists 0%nat; split; [lia | reflexivity] |].
      split; [auto | lia].
  - intros ((k & Hk & ->) & Hf & Hpos). split_cases.
    + split; [exists (S n); split; [lia | reflexivity] |].
      split; [auto | lia].
    + split; [exists (S n); split; [lia | reflexivity] |].
      split; [| lia]. destruct Hf as [Hf | [Hf | Hf]]; auto.
    + split; [exists (S n); split; [lia | reflexivity] |].
      split; [auto | lia].
    + auto.
    + split; [exists (S n); split; [lia | reflexivity] |].
      split; [auto | lia].
    + split; [exists k; split; [lia | reflexivity] |].
      split; [| lia]. right. right.
      match goal with
      | H : (_ >=? _) = false |- _ =>
          rewrite Z.geb_leb in H; apply Z.leb_gt in H; exact H
      end.
Qed.

Lemma reachable_well_shaped (w : World) :
  reachable w -> well_shaped w.
Proof.
  induction 1 as [opts | w args Hw IH].
  - unfold well_shaped. cbn. repeat split.
  - apply well_shaped_fire. exact IH.
Qed.

(** X6.  A breaker that is still CLOSED has never counted a failure, has no
    date set and has never read the clock; its [successCount] is the
    number of calls made to the guarded operation. *)
Theorem reachable_closed_is_pristine (w : World) :
  reachable w ->
  state (this w) = CLOSED ->
  failCount (this w) = 0%N /\
  openDateEnd (this w) = None /\
  halfDateEnd (this w) = None /\
  reads w = 0%nat /\
  successCount (this w) = N.of_nat (List.length (calls w)).
Proof.
  intros Hreach Hst. pose proof (reachable_well_shaped w Hreach) as H.
  unfold well_shaped in H. rewrite Hst in H. exact H.
Qed.

(** X7.  Whenever the state is OPENED both counters are 0 and no half-open date
    is set. *)
Theorem reachable_opened_is_reset (w : World) :
  reachable w ->
  state (this w) = OPENED ->
  failCount (this w) = 0%N /\
  successCount (this w) = 0%N /\
  halfDateEnd (this w) = None.
Proof.
  intros Hreach Hst. pose proof (reachable_well_shaped w Hreach) as H.
  unfold well_shaped in H. rewrite Hst in H. exact H.
Qed.

(** X8.  Whenever the state is HALF the half-open date is defined, as an earlier
    clock read plus [halfTimeout]; at least one outcome has been counted;
    and [failCount] is 0, 1 or below [minFailed]. *)
Theorem reachable_half_has_deadline (w : World) :
  reachable w ->
  state (this w) = HALF ->
  (exists k, (k < reads w)%nat /\
     halfDateEnd (this w)
       = Some (clock k + halfTimeout (options (this w)))) /\
  (failCount (this w) = 0%N \/ failCount (this w) = 1%N \/
   Z.of_N (failCount (this w)) < minFailed (options (this w))) /\
  (1 <= failCount (this w) + successCount (this w))%N.
Proof.
  intros Hreach Hst. pose proof (reachable_well_shaped w Hreach) as H.
  unfold well_shaped in H. rewrite Hst in H. exact H.
Qed.

(** ** The failure rate *)

(** X9.  [getFailRate] changes nothing.  It yields no number exactly when both
    counters are 0; otherwise it yields the percentage of failures among
    the counted outcomes, a number between 0 and 100. *)
Theorem getFailRate_is_a_percentage (w : World) :
  snd (getFailRate w) = w /\
  match fst (getFailRate w) with
  | None => failCount (this w) = 0%N /\ successCount (this w) = 0%N
  | Some q =>
      (0 < failCount (this w) + successCount (this w))%N /\
      Qeq (q * inject_Z
                 (Z.of_N (failCount (this w) + successCount (this w))))
          (inject_Z (100 * Z.of_N (failCount (this w)))) /\
      Qle 0 q /\ Qle q (inject_Z 100)
  end.
Proof.
  destruct w as [[o st od hd f s] n c]. unfold getFailRate, bind, get, ret.
  cbn [fst snd this failCount successCount]. split; [reflexivity |].
  destruct (f + s)%N as [|d] eqn:E.
  - lia.
  - split; [lia |].
    unfold Qeq, Qle, Qmult, inject_Z. cbn [Qnum Qden].
    assert (Hd : Z.pos d = Z.of_N f + Z.of_N s) by lia.
    repeat split; try rewrite Pos.mul_1_r; try nia.
Qed.

Lemma rate_ge_spec (w : World) (p : Z) :
  (0 < failCount (this w))%N ->
  rate_ge (fst (getFailRate w)) p
    = (p * Z.of_N (failCount (this w) + successCount (this w))
         <=? 100 * Z.of_N (failCount (this w))).
Proof.
  destruct w as [[o st od hd f s] n c]. unfold getFailRate, bind, get, ret.
  cbn [fst snd this failCount successCount]. intros Hf.
  destruct (f + s)%N as [|d] eqn:E; [lia |].
  unfold rate_ge, Qle_bool, inject_Z. cbn [Qnum Qden].
  f_equal; lia.
Qed.

(** ** Calls handled in the half-open state *)

(** X10.  A call whose guarded operation resolves while the breaker is HALF
    resolves with the report of the result.  The breaker is HALF afterwards,
    before the half-open date as well as after it, with [successCount = 2]
    and a new half-open date computed from a second clock read;
    [failCount] is kept before the half-open date and set to 0 from that
    date on. *)
Theorem half_open_success_restarts_window
    (w : World) (args : list value) (r : value) :
  state (this w) = HALF ->
  request (List.length (calls w)) [VArray args] = Resolved r ->
  fst (fire args w) = Resolved (VReport r (fst (getInfo w))) /\
  this (snd (fire args w))
    = mkBreaker (options (this w)) HALF (openDateEnd (this w))
        (Some (clock (S (reads w)) + halfTimeout (options (this w))))
        (if js_ge (clock (reads w)) (halfDateEnd (this w))
         then 0%N else failCount (this w))
        2%N /\
  reads (snd (fire args w)) = S (S (reads w)).
Proof.
  destruct w as [[o st od hd f s] n c]. cbn. intros -> Hreq.
  unfold_methods. cbn. rewrite Hreq. cbn.
  destruct (js_ge (clock n) hd); cbn; repeat split.
Qed.

(** X11.  A failure in state HALF strictly after the half-open date: the call
    resolves with the report of the failure and a new half-open window
    starts, with [failCount = 1] and [successCount = 0]. *)
Theorem half_open_failure_after_deadline
    (w : World) (args : list value) (e : value) (d : Z) :
  state (this w) = HALF ->
  halfDateEnd (this w) = Some d ->
  d < clock (reads w) ->
  request (List.length (calls w)) [VArray args] = Rejected e ->
  fst (fire args w) = Resolved (VReport e (fst (getInfo w))) /\
  this (snd (fire args w))
    = mkBreaker (options (this w)) HALF (openDateEnd (this w))
        (Some (clock (S (reads w)) + halfTimeout (options (this w))))
        1%N 0%N.
Proof.
  destruct w as [[o st od hd f s] n c]. cbn. intros -> -> Hlate Hreq.
  unfold_methods. cbn. rewrite Hreq. cbn.
  destruct (Z.gtb_spec (clock n) d); [| lia]. cbn. repeat split.
Qed.

(** X12.  A failure in state HALF not later than the half-open date that leaves
    [failCount] below [minFailed]: the failure is counted, nothing else
    changes, and the call resolves with [undefined]. *)
Theorem half_open_failure_below_minFailed
    (w : World) (args : list value) (e : value) (d : Z) :
  state (this w) = HALF ->
  halfDateEnd (this w) = Some d ->
  clock (reads w) <= d ->
  Z.of_N (failCount (this w) + 1) < minFailed (options (this w)) ->
  request (List.length (calls w)) [VArray args] = Rejected e ->
  fst (fire args w) = Resolved VUndefined /\
  this (snd (fire args w))
    = set_failCount (failCount (this w) + 1)%N (this w) /\
  reads (snd (fire args w)) = S (reads w).
Proof.
  destruct w as [[o st od hd f s] n c]. cbn. intros -> -> Hin Hmin Hreq.
  unfold_methods. cbn. rewrite Hreq. cbn.
  destruct (Z.gtb_spec (clock n) d); [lia |]. cbn.
  destruct (Z.geb_spec (Z.of_N (f + 1)) (minFailed o)); [lia |].
  cbn. repeat split.
Qed.

(** X13.  A failure in state HALF not later than the half-open date that brings
    [failCount] to [minFailed] or more: the call resolves with the report
    of the failure.  If the failures, this one included, are at least
    [percentFailed] per cent of the counted outcomes, the breaker becomes
    OPENED until now plus [openTimeout], with both counters 0 and no
    half-open date; otherwise it stays HALF and a new half-open window
    starts with [failCount = 1] and [successCount = 0]. *)
Theorem half_open_failure_decides
    (w : World) (args : list value) (e : value) (d : Z) :
  state (this w) = HALF ->
  halfDateEnd (this w) = Some d ->
  clock (reads w) <= d ->
  minFailed (options (this w)) <= Z.of_N (failCount (this w) + 1) ->
  request (List.length (calls w)) [VArray args] = Rejected e ->
  fst (fire args w) = Resolved (VReport e (fst (getInfo w))) /\
  this (snd (fire args w))
    = (if percentFailed (options (this w))
            * Z.of_N (failCount (this w) + 1 + successCount (this w))
          <=? 100 * Z.of_N (failCount (this w) + 1)
       then mkBreaker (options (this w)) OPENED
              (Some (clock (S (reads w)) + openTimeout (options (this w))))
              None 0%N 0%N
       else mkBreaker (options (this w)) HALF (openDateEnd (this w))
              (Some (clock (S (reads w)) + halfTimeout (options (this w))))
              1%N 0%N).
Proof.
  destruct w as [[o st od hd f s] n c].
  cbn [this reads calls options state halfDateEnd openDateEnd
       failCount successCount].
  intros -> -> Hin Hmin Hreq.
  pose proof (rate_ge_spec
                (mkWorld (mkBreaker o HALF od (Some d) (f + 1)%N s)
                         (S n) (c ++ [[VArray args]]))
                (percentFailed o)) as Hrate.
  cbn [this failCount successCount] in Hrate.
  rewrite <- Hrate by lia. clear Hrate.
  unfold_methods. cbn. rewrite Hreq. cbn.
  destruct (Z.gtb_spec (clock n) d); [lia |]. cbn.
  destruct (Z.geb_spec (Z.of_N (f + 1)) (minFailed o)); [| lia].
  cbn. destruct ((f + 1 + s)%N) as [|q]; cbn.
  - repeat split.
  - destruct (Qle_bool _ _); cbn; repeat split.
Qed.

(** ** Calls handled in the open state *)

(** X14.  From the open date on, the date itself included, a call in state OPENED
    is forwarded to the guarded operation.  If it resolves, the breaker
    becomes HALF with [successCount = 2] and a half-open date of now plus
    [halfTimeout], and keeps its open date; if it rejects, the breaker
    stays OPENED and the open date becomes now plus [openTimeout].  In both
    cases the call resolves with the report of the outcome. *)
Theorem probe_after_open_date
    (w : World) (args : list value) (d : Z) :
  state (this w) = OPENED ->
  openDateEnd (this w) = Some d ->
  d <= clock (reads w) ->
  calls (snd (fire args w)) = calls w ++ [[VArray args]] /\
  match request (List.length (calls w)) [VArray args] with
  | Resolved r =>
      fst (fire args w) = Resolved (VReport r (fst (getInfo w))) /\
      this (snd (fire args w))
        = mkBreaker (options (this w)) HALF (Some d)
            (Some (clock (S (reads w)) + halfTimeout (options (this w))))
            (failCount (this w)) 2%N
  | Rejected e =>
      fst (fire args w) = Resolved (VReport e (fst (getInfo w))) /\
      this (snd (fire args w))
        = mkBreaker (options (this w)) OPENED
            (Some (clock (S (reads w)) + openTimeout (options (this w))))
            (halfDateEnd (this w)) (failCount (this w))
            (successCount (this w))
  end.
Proof.
  destruct w as [[o st od hd f s] n c]. cbn. intros -> -> Hlate.
  unfold_methods. cbn.
  destruct (Z.ltb_spec (clock n) d); [lia |]. cbn.
  destruct (request (List.length c) [VArray args]); cbn; repeat split.
Qed.

Lemma fire_resolves_unless_open (w : World) (args : list value) :
  state (this w) <> OPENED \/
  js_lt (clock (reads w)) (openDateEnd (this w)) = false ->
  exists v, fst (fire args w) = Resolved v.
Proof.
  destruct w as [[o st od hd f s] n c]. cbn. intros Hadm.
  unfold_methods. cbn.
  destruct st; cbn.
  - destruct Hadm as [Hadm | Hadm]; [congruence |]. rewrite Hadm.
    split_cases; eexists; reflexivity.
  - split_cases; eexists; reflexivity.
  - split_cases; eexists; reflexivity.
Qed.

(** X15.  With a clock that never goes back and an [openTimeout] that is not
    positive, the breaker never refuses a call: every call of [fire]
    resolves. *)
Theorem nonpositive_openTimeout_never_blocks
    (w : World) (args : list value) :
  reachable w ->
  (forall i j, (i <= j)%nat -> clock i <= clock j) ->
  openTimeout (options (this w)) <= 0 ->
  exists v, fst (fire args w) = Resolved v.
Proof.
  intros Hreach Hmono Hneg. apply fire_resolves_unless_open.
  destruct (state (this w)) eqn:Hst; try (left; discriminate).
  right. destruct (reachable_open_date_set w Hreach Hst) as (k & Hk & Hod).
  rewrite Hod. cbn. apply Z.ltb_ge.
  pose proof (Hmono k (reads w)). lia.
Qed.

(** What a call of [fire] can settle to. *)
Lemma fire_result_cases (w : World) (args : list value) :
  fst (fire args w) = CircuitOpen \/
  fst (fire args w) = Resolved VUndefined \/
  exists i,
    fst (fire args w)
      = Resolved (VReport
                    match request (List.length (calls w)) [VArray args] with
                    | Resolved r => r
                    | Rejected e => e
                    end i).
Proof.
  destruct w as [[o st od hd f s] n c]. unfold_methods. cbn.
  destruct st; split_cases; auto; right; right; eexists; reflexivity.
Qed.

End Properties.

(** * The properties on concrete runs *)

Lemma opened_world_is_scenario :
  snd (fire_all ticking_clock always_failing [[]; []]
         (initial_world (constructor scenario_options)))
  = opened_world.
Proof. reflexivity. Qed.

Lemma fire_while_open_rejects_witness :
  state (this opened_world) = OPENED /\
  openDateEnd (this opened_world) = Some 7000 /\
  fst (fire_all ticking_clock always_failing
         [[]; [VNumber 1]; [VString "again"%string]] opened_world)
    = repeat (Rejected (VError "The circuit is open"%string)) 3 /\
  this (snd (fire_all ticking_clock always_failing
               [[]; [VNumber 1]; [VString "again"%string]] opened_world))
    = this opened_world /\
  calls (snd (fire_all ticking_clock always_failing
                [[]; [VNumber 1]; [VString "again"%string]] opened_world))
    = calls opened_world.
Proof.
  split; [reflexivity |]. split; [reflexivity |].
  apply (fire_while_open_rejects ticking_clock always_failing
           [[]; [VNumber 1]; [VString "again"%string]] opened_world 7000).
  - reflexivity.
  - reflexivity.
  - intros k Hk. cbn in Hk. unfold ticking_clock. cbn [reads opened_world].
    lia.
Defined.

Lemma scenario_two_failures_then_open_witness :
  let w0 := initial_world (constructor scenario_options) in
  let w1 := snd (fire ticking_clock always_failing [] w0) in
  let w2 := snd (fire ticking_clock always_failing [] w1) in
  let counted :=
    snd (assign (fun b => set_failCount (failCount b + 1)%N b) w1) in
  state (this w0) = CLOSED /\
  (state (this w1) = HALF /\ failCount (this w1) = 1%N) /\
  (failCount (this counted) = 2%N /\
   exists q, fst (getFailRate counted) = Some q /\ Qeq q (inject_Z 100)) /\
  state (this w2) = OPENED /\
  fst (fire ticking_clock always_failing [] w2)
    = Rejected (VError "The circuit is open"%string) /\
  calls (snd (fire ticking_clock always_failing [] w2)) = calls w2.
Proof.
  apply (scenario_two_failures_then_open ticking_clock always_failing
           [] [] [] (VString "Failed"%string) (VString "Failed"%string)).
  - reflexivity.
  - reflexivity.
  - reflexivity.
  - reflexivity.
Defined.


(** ** Success while half-open *)

(** C2. A new breaker with the default configuration, one failed call, then
    one successful call.  With the clock ticking every second the
    successful call arrives before the half-open date (1000 < 10000): the
    state stays HALF, but [successCount] goes from 0 to 2 and the half-open
    date moves from 10000 to 12000.  With the clock advancing twenty
    seconds per read the successful call arrives after the half-open date
    (20000 >= 10000): the state is HALF again, not CLOSED, and
    [successCount] is 2, not 0. *)
Theorem success_while_half_open_runs_every_case :
  let w0 := initial_world (constructor None) in
  let early1 := snd (fire ticking_clock failing_once [] w0) in
  let early2 := snd (fire ticking_clock failing_once [] early1) in
  let late1 := snd (fire slow_clock failing_once [] w0) in
  let late2 := snd (fire slow_clock failing_once [] late1) in
  (state (this early1) = HALF /\
   halfDateEnd (this early1) = Some 10000 /\
   ticking_clock (reads early1) = 1000 /\
   successCount (this early1) = 0%N /\
   state (this early2) = HALF /\
   successCount (this early2) = 2%N /\
   successCount (this early2) <> (successCount (this early1) + 1)%N /\
   halfDateEnd (this early2) = Some 12000 /\
   halfDateEnd (this early2) <> halfDateEnd (this early1) /\
   failCount (this early2) = failCount (this early1)) /\
  (state (this late1) = HALF /\
   halfDateEnd (this late1) = Some 10000 /\
   slow_clock (reads late1) = 20000 /\
   state (this late2) = HALF /\
   state (this late2) <> CLOSED /\
   successCount (this late2) = 2%N /\
   failCount (this late2) = 0%N).
Proof.
  cbv zeta. vm_compute. repeat split; discriminate.
Qed.

(** ** The value delivered after a failure *)

(** C4. A new breaker with the default configuration ([minFailed = 15]) and
    a guarded operation that always rejects with "Failed".  The first call
    resolves with the report carrying "Failed".  The second call is
    admitted in state HALF, the guarded operation rejects with "Failed",
    the count rises to 2, which is below 15: the promise resolves with
    [undefined] and the payload is lost. *)
Theorem failure_below_minFailed_yields_undefined :
  let w0 := initial_world (constructor None) in
  let first := fire ticking_clock always_failing [] w0 in
  let second := fire ticking_clock always_failing [] (snd first) in
  fst first
    = Resolved (VReport (VString "Failed"%string)
                  (mkInfo CLOSED (newDate 0) (newDate 0))) /\
  state (this (snd first)) = HALF /\
  always_failing (List.length (calls (snd first))) [VArray []]
    = Rejected (VString "Failed"%string) /\
  calls (snd second) = calls (snd first) ++ [[VArray []]] /\
  failCount (this (snd second)) = 2%N /\
  minFailed (options (this (snd second))) = 15 /\
  fst second = Resolved VUndefined.
Proof.
  cbv zeta. vm_compute. repeat split.
Qed.

(** ** A failure exactly at the half-open date *)

(** C7. A new breaker with the default configuration and a guarded operation
    that always rejects.  The first failure sets the half-open date to
    10000.  The second failure is handled when the clock reads exactly
    10000: the window is not restarted (the date stays 10000) and the
    failure is added to the count, which becomes 2 instead of 1. *)
Theorem failure_at_half_open_date_accumulates :
  let w0 := initial_world (constructor None) in
  let w1 := snd (fire deadline_clock always_failing [] w0) in
  let w2 := snd (fire deadline_clock always_failing [] w1) in
  state (this w1) = HALF /\
  halfDateEnd (this w1) = Some 10000 /\
  deadline_clock (reads w1) = 10000 /\
  state (this w2) = HALF /\
  failCount (this w2) = 2%N /\
  failCount (this w2) <> 1%N /\
  halfDateEnd (this w2) = Some 10000 /\
  reads w2 = S (reads w1).
Proof.
  cbv zeta. vm_compute. repeat split; discriminate.
Qed.

(** ** The arguments the guarded operation receives *)

(** C8. [fire(1, 2)] on a new breaker calls the guarded operation once, with
    a single argument, the array [[1, 2]], and not with the two arguments
    1 and 2. *)
Theorem fire_passes_arguments_as_one_array :
  let w0 := initial_world (constructor None) in
  let w1 := snd (fire ticking_clock failing_once [VNumber 1; VNumber 2] w0) in
  calls w1 = [[VArray [VNumber 1; VNumber 2]]] /\
  calls w1 <> [[VNumber 1; VNumber 2]].
Proof.
  cbv zeta. vm_compute. split; [reflexivity | discriminate].
Qed.

(** ** Construction *)

(** C6, as stated, fails: a configuration with a negative [openTimeout]
    (and every other option malformed too) constructs a breaker; no error
    is raised. *)
Lemma malformed_options_do_not_throw :
  malformed malformed_options /\
  new_CircuitBreaker (Some malformed_options)
    = Normal (mkBreaker (mkRequired (-10000) (-1) (-3) 150)
                CLOSED None None 0%N 0%N) /\
  ~ (exists e, new_CircuitBreaker (Some malformed_options) = Throw e).
Proof.
  split; [| split].
  - left. exists (-1). split; [reflexivity | lia].
  - reflexivity.
  - intros [e He]. discriminate He.
Qed.

(** C6, amended.  Constructing a breaker with a malformed configuration
    does not fail: the constructor returns a CLOSED breaker with zero
    counters and no dates, in which every negative option, and every ratio
    above 100, is stored as it was given. *)
Theorem malformed_configuration_constructs (o : Options) :
  malformed o ->
  exists b,
    new_CircuitBreaker (Some o) = Normal b /\
    state b = CLOSED /\
    openDateEnd b = None /\ halfDateEnd b = None /\
    failCount b = 0%N /\ successCount b = 0%N /\
    (forall t, opt_openTimeout o = Some t -> t < 0 ->
               openTimeout (options b) = t) /\
    (forall t, opt_halfTimeout o = Some t -> t < 0 ->
               halfTimeout (options b) = t) /\
    (forall m, opt_minFailed o = Some m -> m < 0 ->
               minFailed (options b) = m) /\
    (forall p, opt_percentFailed o = Some p -> p < 0 \/ 100 < p ->
               percentFailed (options b) = p).
Proof.
  intros _. exists (constructor (Some o)).
  destruct o as [h t m p]. cbn.
  repeat split; intros v -> Hv; destruct v; cbn; try reflexivity; lia.
Qed.

Lemma malformed_configuration_constructs_witness :
  malformed malformed_options /\
  exists b,
    new_CircuitBreaker (Some malformed_options) = Normal b /\
    state b = CLOSED /\
    openDateEnd b = None /\ halfDateEnd b = None /\
    failCount b = 0%N /\ successCount b = 0%N /\
    (forall t, opt_openTimeout malformed_options = Some t -> t < 0 ->
               openTimeout (options b) = t) /\
    (forall t, opt_halfTimeout malformed_options = Some t -> t < 0 ->
               halfTimeout (options b) = t) /\
    (forall m, opt_minFailed malformed_options = Some m -> m < 0 ->
               minFailed (options b) = m) /\
    (forall p, opt_percentFailed malformed_options = Some p ->
               p < 0 \/ 100 < p ->
               percentFailed (options b) = p).
Proof.
  assert (H : malformed malformed_options).
  { left. exists (-1). split; [reflexivity | lia]. }
  split; [exact H |].
  exact (malformed_configuration_constructs malformed_options H).
Defined.

(** C10. An option passed as 0 is replaced by its default (5000 for
    [openTimeout], 10000 for [halfTimeout], 15 for [minFailed], 50 for
    [percentFailed]): construction succeeds and yields the very breaker
    obtained when the option is left out, whatever the other options
    are. *)
Theorem zero_option_is_default (h t m p : option Z) :
  (new_CircuitBreaker (Some (mkOptions h (Some 0) m p))
     = new_CircuitBreaker (Some (mkOptions h None m p)) /\
   new_CircuitBreaker (Some (mkOptions h (Some 0) m p))
     = Normal (constructor (Some (mkOptions h None m p))) /\
   openTimeout (options (constructor (Some (mkOptions h (Some 0) m p))))
     = 5000) /\
  (new_CircuitBreaker (Some (mkOptions (Some 0) t m p))
     = new_CircuitBreaker (Some (mkOptions None t m p)) /\
   new_CircuitBreaker (Some (mkOptions (Some 0) t m p))
     = Normal (constructor (Some (mkOptions None t m p))) /\
   halfTimeout (options (constructor (Some (mkOptions (Some 0) t m p))))
     = 10000) /\
  (new_CircuitBreaker (Some (mkOptions h t (Some 0) p))
     = new_CircuitBreaker (Some (mkOptions h t None p)) /\
   new_CircuitBreaker (Some (mkOptions h t (Some 0) p))
     = Normal (constructor (Some (mkOptions h t None p))) /\
   minFailed (options (constructor (Some (mkOptions h t (Some 0) p))))
     = 15) /\
  (new_CircuitBreaker (Some (mkOptions h t m (Some 0)))
     = new_CircuitBreaker (Some (mkOptions h t m None)) /\
   new_CircuitBreaker (Some (mkOptions h t m (Some 0)))
     = Normal (constructor (Some (mkOptions h t m None))) /\
   percentFailed (options (constructor (Some (mkOptions h t m (Some 0)))))
     = 50).
Proof.
  repeat split.
Qed.

(** ** The further properties on concrete runs *)

Lemma half_world_reachable :
  reachable ticking_clock always_failing half_world.
Proof.
  exact (reachable_fire ticking_clock always_failing _ []
           (reachable_new ticking_clock always_failing None)).
Qed.

Lemma never_closed_again_witness :
  state (this (snd (fire_all ticking_clock failing_once [[]; []; []]
                      half_world))) <> CLOSED.
Proof.
  apply (never_closed_again ticking_clock failing_once
           [[]; []; []] half_world).
  discriminate.
Defined.

Lemma closed_breaker_counts_successes_witness :
  this (snd (fire_all ticking_clock always_succeeding
               [[]; [VNumber 7]] new_world))
    = set_successCount
        (successCount (this new_world) + N.of_nat 2)%N (this new_world) /\
  reads (snd (fire_all ticking_clock always_succeeding
                [[]; [VNumber 7]] new_world)) = reads new_world /\
  calls (snd (fire_all ticking_clock always_succeeding
                [[]; [VNumber 7]] new_world))
    = calls new_world
        ++ map (fun args => [VArray args]) [[]; [VNumber 7]] /\
  Forall (fun result => exists r i,
            result = Resolved (VReport r i) /\ info_state i = CLOSED)
         (fst (fire_all ticking_clock always_succeeding
                 [[]; [VNumber 7]] new_world)).
Proof.
  apply (closed_breaker_counts_successes ticking_clock always_succeeding
           [[]; [VNumber 7]] new_world).
  - intros k a. exists (VString "Success"%string). reflexivity.
  - reflexivity.
Defined.

Lemma first_failure_keeps_success_count_witness :
  snd (fire_all ticking_clock failing_third [[]; []] new_world)
    = counted_world /\
  successCount (this counted_world) = 2%N /\
  fst (fire ticking_clock failing_third [VNumber 1] counted_world)
    = Resolved (VReport (VString "Failed"%string)
                  (mkInfo CLOSED (newDate 0) (newDate 0))) /\
  this (snd (fire ticking_clock failing_third [VNumber 1] counted_world))
    = mkBreaker (mkRequired 10000 5000 15 50) HALF None (Some 10000)
        1%N 2%N /\
  reads (snd (fire ticking_clock failing_third [VNumber 1] counted_world))
    = 1%nat.
Proof.
  split; [reflexivity |]. split; [reflexivity |].
  apply (first_failure_keeps_success_count ticking_clock failing_third
           counted_world [VNumber 1] (VString "Failed"%string)).
  - reflexivity.
  - reflexivity.
Defined.

Lemma reachable_closed_is_pristine_witness :
  let w := snd (fire ticking_clock always_succeeding [] new_world) in
  state (this w) = CLOSED /\
  failCount (this w) = 0%N /\
  openDateEnd (this w) = None /\
  halfDateEnd (this w) = None /\
  reads w = 0%nat /\
  successCount (this w) = N.of_nat (List.length (calls w)).
Proof.
  split; [reflexivity |].
  apply (reachable_closed_is_pristine ticking_clock always_succeeding).
  - exact (reachable_fire ticking_clock always_succeeding _ []
             (reachable_new ticking_clock always_succeeding None)).
  - reflexivity.
Defined.

Lemma reachable_opened_is_reset_witness :
  state (this opened_world) = OPENED /\
  failCount (this opened_world) = 0%N /\
  successCount (this opened_world) = 0%N /\
  halfDateEnd (this opened_world) = None.
Proof.
  split; [reflexivity |].
  apply (reachable_opened_is_reset ticking_clock always_failing).
  - exact (reachable_fire ticking_clock always_failing _ []
             (reachable_fire ticking_clock always_failing _ []
                (reachable_new ticking_clock always_failing
                   scenario_options))).
  - reflexivity.
Defined.

Lemma reachable_half_has_deadline_witness :
  state (this half_world) = HALF /\
  (exists k, (k < reads half_world)%nat /\
     halfDateEnd (this half_world)
       = Some (ticking_clock k + halfTimeout (options (this half_world)))) /\
  (failCount (this half_world) = 0%N \/
   failCount (this half_world) = 1%N \/
   Z.of_N (failCount (this half_world))
     < minFailed (options (this half_world))) /\
  (1 <= failCount (this half_world) + successCount (this half_world))%N.
Proof.
  split; [reflexivity |].
  apply (reachable_half_has_deadline ticking_clock always_failing).
  - exact half_world_reachable.
  - reflexivity.
Defined.

Lemma half_open_success_restarts_window_witness :
  fst (fire ticking_clock always_succeeding [] half_world)
    = Resolved (VReport (VString "Success"%string)
                  (fst (getInfo half_world))) /\
  this (snd (fire ticking_clock always_succeeding [] half_world))
    = mkBreaker (options (this half_world)) HALF
        (openDateEnd (this half_world))
        (Some (ticking_clock (S (reads half_world))
               + halfTimeout (options (this half_world))))
        (if js_ge (ticking_clock (reads half_world))
                  (halfDateEnd (this half_world))
         then 0%N else failCount (this half_world))
        2%N /\
  reads (snd (fire ticking_clock always_succeeding [] half_world))
    = S (S (reads half_world)).
Proof.
  apply (half_open_success_restarts_window ticking_clock always_succeeding
           half_world [] (VString "Success"%string)).
  - reflexivity.
  - reflexivity.
Defined.

Lemma half_open_failure_after_deadline_witness :
  fst (fire slow_clock always_failing [] half_world)
    = Resolved (VReport (VString "Failed"%string)
                  (fst (getInfo half_world))) /\
  this (snd (fire slow_clock always_failing [] half_world))
    = mkBreaker (options (this half_world)) HALF
        (openDateEnd (this half_world))
        (Some (slow_clock (S (reads half_world))
               + halfTimeout (options (this half_world))))
        1%N 0%N.
Proof.
  apply (half_open_failure_after_deadline slow_clock always_failing
           half_world [] (VString "Failed"%string) 10000).
  - reflexivity.
  - reflexivity.
  - reflexivity.
  - reflexivity.
Defined.

Lemma half_open_failure_below_minFailed_witness :
  fst (fire ticking_clock always_failing [] half_world)
    = Resolved VUndefined /\
  this (snd (fire ticking_clock always_failing [] half_world))
    = set_failCount (failCount (this half_world) + 1)%N (this half_world) /\
  reads (snd (fire ticking_clock always_failing [] half_world))
    = S (reads half_world).
Proof.
  apply (half_open_failure_below_minFailed ticking_clock always_failing
           half_world [] (VString "Failed"%string) 10000).
  - reflexivity.
  - reflexivity.
  - cbn. lia.
  - reflexivity.
  - reflexivity.
Defined.

Lemma half_open_failure_decides_witness :
  fst (fire ticking_clock always_failing [] scenario_half_world)
    = Resolved (VReport (VString "Failed"%string)
                  (fst (getInfo scenario_half_world))) /\
  this (snd (fire ticking_clock always_failing [] scenario_half_world))
    = mkBreaker (mkRequired 10000 5000 2 50) OPENED
        (Some 7000) None 0%N 0%N.
Proof.
  apply (half_open_failure_decides ticking_clock always_failing
           scenario_half_world [] (VString "Failed"%string) 10000).
  - reflexivity.
  - reflexivity.
  - cbn. lia.
  - cbn. lia.
  - reflexivity.
Defined.

Lemma probe_after_open_date_witness :
  calls (snd (fire slow_clock always_failing [] opened_world))
    = calls opened_world ++ [[VArray []]] /\
  fst (fire slow_clock always_failing [] opened_world)
    = Resolved (VReport (VString "Failed"%string)
                  (fst (getInfo opened_world))) /\
  this (snd (fire slow_clock always_failing [] opened_world))
    = mkBreaker (options (this opened_world)) OPENED
        (Some (slow_clock (S (reads opened_world))
               + openTimeout (options (this opened_world))))
        (halfDateEnd (this opened_world)) (failCount (this opened_world))
        (successCount (this opened_world)).
Proof.
  apply (probe_after_open_date slow_clock always_failing
           opened_world [] 7000).
  - reflexivity.
  - reflexivity.
  - cbn. lia.
Defined.

Lemma nonpositive_openTimeout_never_blocks_witness :
  let w :=
    snd (fire_all ticking_clock always_failing [[]; []]
           (initial_world (constructor (Some impatient_options)))) in
  openTimeout (options (this w)) = -1 /\
  state (this w) = OPENED /\
  exists v, fst (fire ticking_clock always_failing [] w) = Resolved v.
Proof.
  split; [reflexivity |]. split; [reflexivity |].
  apply (nonpositive_openTimeout_never_blocks ticking_clock always_failing).
  - exact (reachable_fire ticking_clock always_failing _ []
             (reachable_fire ticking_clock always_failing _ []
                (reachable_new ticking_clock always_failing
                   (Some impatient_options)))).
  - intros i j Hij. unfold ticking_clock. lia.
  - cbn. lia.
Defined.

(** ** The demonstration program *)

Lemma interval_succ (clock : nat -> Z) (lucky : nat -> bool)
    (n : nat) (w : World) :
  Index.interval clock lucky (S n) w =
    (fst (Index.callback clock lucky w)
       :: fst (Index.interval clock lucky n
                 (snd (Index.callback clock lucky w))),
     snd (Index.interval clock lucky n
            (snd (Index.callback clock lucky w)))).
Proof.
  cbn [Index.interval]. unfold bind, ret.
  destruct (Index.callback clock lucky w) as [o w1]. cbn [fst snd].
  destruct (Index.interval clock lucky n w1) as [os w2]. reflexivity.
Qed.

(** X16.  Whatever the clock and the random draws are, and whatever state the
    breaker is in, [n] runs of the interval callback of [index.ts] write
    [n] values: on the standard error only the message
    'The circuit is open'; on the standard output a report carrying
    "Success" or "Failed", or [undefined].  The rejection handler never
    throws. *)
Theorem demo_output
    (clock : nat -> Z) (lucky : nat -> bool) (n : nat) (w : World) :
  List.length (fst (Index.interval clock lucky n w)) = n /\
  Forall (fun o =>
            o = Index.Error (VString "The circuit is open"%string) \/
            o = Index.Log VUndefined \/
            exists i, o = Index.Log (VReport (VString "Success"%string) i) \/
                      o = Index.Log (VReport (VString "Failed"%string) i))
         (fst (Index.interval clock lucky n w)).
Proof.
  revert w. induction n as [|n IH]; intros w.
  - cbn. split; [reflexivity | constructor].
  - rewrite interval_succ. cbn [fst List.length].
    destruct (IH (snd (Index.callback clock lucky w))) as [Hlen Hall].
    split; [now rewrite Hlen |].
    constructor; [| exact Hall].
    unfold Index.callback, bind, ret.
    pose proof (fire_result_cases clock (Index.request lucky) w [])
      as [H | [H | [i H]]];
      destruct (fire clock (Index.request lucky) [] w) as [r w1];
      cbn [fst] in *; subst r; cbn.
    + left. reflexivity.
    + right. left. reflexivity.
    + right. right. exists i. unfold Index.request.
      destruct (lucky (List.length (calls w))); auto.
Qed.
